(** * The elasticurl integration-test runner

    A shallow embedding of
    [.builder/integration-testing/java_elasticurl_runner.py]: the
    construction of the Maven command line from [sys.argv], and
    [run_command], which runs it through a shell with a timeout and raises
    when the command fails or does not finish in time.

    Python values are embedded as follows.
    - [str] is a sequence of Unicode code points, [bytes] a sequence of bytes.
    - The interpreter state that the script touches (the text written by
      [print], the process table behind [subprocess.Popen], the local
      variables of [run_command]) is threaded through a state and exception
      monad [M].
    - What a spawned command does (its output, its exit status, whether it
      finishes before a deadline) is not decided by the script; it is an
      input of the model, the [child] record. *)

From Stdlib Require Import ZArith NArith List String Ascii Bool Lia.
From Stdlib.Strings Require Import Byte.
From Stdlib Require Import DecimalString.
Import ListNotations.

Set Implicit Arguments.

(** ** Python strings *)

Module Py.

(** A [str] is a list of code points, a [bytes] object a list of bytes. *)
Definition char := N.
Definition str := list char.
Definition bytes := list byte.

(** An ASCII literal of the source as a [str]. *)
Definition lit (s : string) : str :=
  map N_of_ascii (list_ascii_of_string s).

(** The double quote character, which the source writes with a backslash. *)
Definition dq : str := [34%N].

(** [sep.join(xs)] *)
Fixpoint join (sep : str) (xs : list str) : str :=
  match xs with
  | [] => []
  | x :: rest =>
      match rest with
      | [] => x
      | _ :: _ => x ++ sep ++ join sep rest
      end
  end.

(** The values the script passes to [str.format] and to [print]. *)
Inductive value :=
| VNone
| VInt (z : Z)
| VStr (s : str)
| VList (l : list str).

(** [str(int)]: decimal digits, with a leading minus sign for negatives. *)
Definition str_of_int (z : Z) : str :=
  lit (NilZero.string_of_int (Z.to_int z)).

(** [format(v, '')], the text a replacement field with no format spec turns
    its value into.  The script never formats a list, whose text is its
    [repr]; that case is left out. *)
Definition to_text (v : value) : option str :=
  match v with
  | VNone => Some (lit "None")
  | VInt z => Some (str_of_int z)
  | VStr s => Some s
  | VList _ => None
  end.

Definition lbrace : char := 123%N.
Definition rbrace : char := 125%N.

Fixpoint lookup_kw (name : str) (kw : list (str * value)) : option value :=
  match kw with
  | [] => None
  | (k, v) :: rest =>
      if list_eq_dec N.eq_dec k name then Some v else lookup_kw name rest
  end.

(** [template.format( *pos, **kw )] for the templates of the script: literal
    text, automatically numbered fields [{}] and keyword fields [{name}].
    [field] is [Some acc] while the scan is between the braces of a field
    whose name so far is [acc].  [None] stands for the exception Python
    raises (a field with no argument, an unbalanced brace) and for what this
    model leaves out (brace escapes, conversions and format specs). *)
Fixpoint format_from (tmpl : str) (field : option str)
         (pos : list value) (kw : list (str * value)) : option str :=
  match tmpl with
  | [] =>
      match field with
      | None => Some []
      | Some _ => None
      end
  | c :: rest =>
      match field with
      | None =>
          if N.eqb c lbrace then format_from rest (Some []) pos kw
          else if N.eqb c rbrace then None
          else option_map (cons c) (format_from rest None pos kw)
      | Some acc =>
          if N.eqb c rbrace then
            match acc with
            | [] =>
                match pos with
                | [] => None
                | v :: pos' =>
                    match to_text v, format_from rest None pos' kw with
                    | Some t, Some r => Some (t ++ r)
                    | _, _ => None
                    end
                end
            | _ :: _ =>
                match lookup_kw acc kw with
                | None => None
                | Some v =>
                    match to_text v, format_from rest None pos kw with
                    | Some t, Some r => Some (t ++ r)
                    | _, _ => None
                    end
                end
            end
          else if N.eqb c lbrace then None
          else format_from rest (Some (acc ++ [c])) pos kw
      end
  end.

Definition format (tmpl : str) (pos : list value) (kw : list (str * value))
  : option str :=
  format_from tmpl None pos kw.

(** [sub in s] *)
Definition substring (sub s : str) : Prop :=
  exists pre post, s = pre ++ sub ++ post.

End Py.

Import Py.

(** ** Building the command line (lines 5 to 17 of the script) *)

Definition TIMEOUT : N := 100.

(** [mvn_args]: the arguments joined by single spaces. *)
Definition mvn_args (elasticurl_args : list str) : str :=
  join (lit " ") elasticurl_args.

(** The list [java_command].  Its last element is built by [str.format]. *)
Definition java_command (elasticurl_args : list str) : option (list str) :=
  match format (lit "-Dexec.args=" ++ dq ++ lit "{}" ++ dq)
               [VStr (mvn_args elasticurl_args)] [] with
  | Some exec_args =>
      Some [ lit "mvn"; lit "-e"; lit "exec:java";
             lit "-Dexec.classpathScope=" ++ dq ++ lit "test" ++ dq;
             lit "-Dexec.mainClass=" ++ dq
               ++ lit "software.amazon.awssdk.crt.test.Elasticurl" ++ dq;
             exec_args ]
  | None => None
  end.

(** [command_string]: the elements of [java_command] joined by single spaces. *)
Definition command_string (elasticurl_args : list str) : option str :=
  option_map (join (lit " ")) (java_command elasticurl_args).

(** The flag [-Dexec.args] of the spec, its quoted value filled in. *)
Definition exec_args_flag (joined : str) : str :=
  lit "-Dexec.args=" ++ dq ++ joined ++ dq.

(** The command template of the spec, with the joined arguments filled in. *)
Definition command_template (joined : str) : str :=
  lit "mvn -e exec:java -Dexec.classpathScope=" ++ dq ++ lit "test" ++ dq
    ++ lit " -Dexec.mainClass=" ++ dq
    ++ lit "software.amazon.awssdk.crt.test.Elasticurl" ++ dq
    ++ lit " " ++ exec_args_flag joined.

(** ** Byte strings: [bytes.splitlines] and [bytes.decode] *)

Module PyBytes.

(** [bs.splitlines()] on a byte string: a line ends at a line feed, at a
    carriage return, or at a carriage return followed by a line feed, which
    counts as one break.  The breaks are dropped, and a break at the very end
    opens no further line.  [cur] is the line read so far. *)
Fixpoint splitlines_from (cur : bytes) (bs : bytes) : list bytes :=
  match bs with
  | [] =>
      match cur with
      | [] => []
      | _ :: _ => [cur]
      end
  | b :: rest =>
      if Byte.eqb b x0a then cur :: splitlines_from [] rest
      else if Byte.eqb b x0d then
        match rest with
        | b' :: rest' =>
            if Byte.eqb b' x0a then cur :: splitlines_from [] rest'
            else cur :: splitlines_from [] rest
        | [] => [cur]
        end
      else splitlines_from (cur ++ [b]) rest
  end.

Definition splitlines (bs : bytes) : list bytes := splitlines_from [] bs.

Definition between (lo hi b : N) : bool := (lo <=? b)%N && (b <=? hi)%N.

(** A continuation byte [10xxxxxx]. *)
Definition continuation (b : N) : bool := between 128 191 b.

(** The six payload bits of a continuation byte appended to [acc]. *)
Definition push6 (acc b : N) : N :=
  N.lor (N.shiftl acc 6) (N.land b 63).

Definition surrogate (cp : N) : bool := between 55296 57343 cp.

(** Strict UTF-8 over byte values: what [bytes.decode()] does with its
    default arguments ([encoding='utf-8'], [errors='strict']).  [None] is
    [UnicodeDecodeError]: a stray continuation byte, a truncated sequence, an
    overlong form, a surrogate, or a code point above U+10FFFF. *)
Fixpoint utf8 (bs : list N) : option str :=
  match bs with
  | [] => Some []
  | b0 :: r0 =>
      if (b0 <? 128)%N then option_map (cons b0) (utf8 r0)
      else if between 194 223 b0 then
        match r0 with
        | b1 :: r1 =>
            if continuation b1
            then option_map (cons (push6 (N.land b0 31) b1)) (utf8 r1)
            else None
        | _ => None
        end
      else if between 224 239 b0 then
        match r0 with
        | b1 :: b2 :: r2 =>
            let cp := push6 (push6 (N.land b0 15) b1) b2 in
            if continuation b1 && continuation b2
               && (2048 <=? cp)%N && negb (surrogate cp)
            then option_map (cons cp) (utf8 r2)
            else None
        | _ => None
        end
      else if between 240 244 b0 then
        match r0 with
        | b1 :: b2 :: b3 :: r3 =>
            let cp := push6 (push6 (push6 (N.land b0 7) b1) b2) b3 in
            if continuation b1 && continuation b2 && continuation b3
               && between 65536 1114111 cp
            then option_map (cons cp) (utf8 r3)
            else None
        | _ => None
        end
      else None
  end.

(** [line.decode()] *)
Definition decode (line : bytes) : option str :=
  utf8 (map Byte.to_N line).

End PyBytes.

Import PyBytes.

(** ** The interpreter state and the subprocess interface *)

Definition handle := nat.

(** The exceptions that can travel through [run_command]. *)
Inductive exn :=
| TimeoutExpired                (* subprocess.TimeoutExpired *)
| RuntimeError (msg : str)
| UnicodeDecodeError
| UnboundLocalError (name : string)
| FormatError                   (* what str.format raises *)
| Other (name : string).        (* anything else the wait may raise *)

(** How one call of [communicate] ends.
    - [Exits out code]: the child ended; its merged output is [out].
    - [Expires]: the child and its pipe outlast the wait.  With a deadline
      the call raises [TimeoutExpired] when the deadline passes; without
      one it never returns.
    - [Fails err rc]: the call raises another exception (an interrupt, an
      operating-system error); [rc] is what the [returncode] attribute holds
      at that point. *)
Inductive reply :=
| Exits (out : bytes) (code : Z)
| Expires
| Fails (err : string) (rc : option Z).

(** What a spawned command does.  [respond (Some t)] answers
    [communicate(timeout=t)] and [respond None] answers [communicate()] while
    the child has not been killed.  [after_kill] answers [communicate] once
    [kill] has been called: [Exits out code] when the collection returns
    everything the child wrote and the status it was reaped with, [Fails]
    when the collection raises, [Expires] when it does not return (with
    [shell=True] the signal reaches the shell only, and a command that the
    shell started can keep the pipe open). *)
Record child := {
  respond : option N -> reply;
  after_kill : reply
}.

(** An entry of the process table: a [Popen] object. *)
Record proc := {
  script : child;
  returncode : option Z;
  was_killed : bool
}.

(** What the outside world can observe, in order. *)
Inductive event :=
| EvSpawn (h : handle) (cmd : str)             (* Popen(cmd, shell=True, ...) *)
| EvCommunicate (h : handle) (timeout : option N)
| EvKill (h : handle)
| EvExit (h : handle) (code : Z)               (* the child was waited for *)
| EvPrint (v : value).

(** The local variables of [run_command]; [None] is an unbound name. *)
Record frame := {
  process : option handle;
  timedout : option bool;
  output : option bytes
}.

Definition empty_frame : frame :=
  {| process := None; timedout := None; output := None |}.

(** [oracle n] is the behaviour of the [n]-th command spawned.  [locals] is
    the frame of the latest call of [run_command]; it is kept after the call
    returns so that statements can speak about the local variables. *)
Record state := {
  oracle : nat -> child;
  table : list proc;
  trace : list event;
  locals : frame
}.

Definition initial (o : nat -> child) : state :=
  {| oracle := o; table := []; trace := []; locals := empty_frame |}.

Definition log (e : event) (s : state) : state :=
  {| oracle := oracle s; table := table s; trace := trace s ++ [e];
     locals := locals s |}.

Definition with_locals (f : frame) (s : state) : state :=
  {| oracle := oracle s; table := table s; trace := trace s; locals := f |}.

Definition with_table (t : list proc) (s : state) : state :=
  {| oracle := oracle s; table := t; trace := trace s; locals := locals s |}.

(** [update h p t]: the table [t] with entry [h] replaced by [p]. *)
Fixpoint update (h : handle) (p : proc) (t : list proc) : list proc :=
  match t, h with
  | [], _ => []
  | _ :: rest, O => p :: rest
  | q :: rest, S h' => q :: update h' p rest
  end.

(** What [print] has written, oldest first. *)
Fixpoint printed (t : list event) : list value :=
  match t with
  | [] => []
  | EvPrint v :: rest => v :: printed rest
  | _ :: rest => printed rest
  end.

(** ** The monad: state, and exceptions that keep the state *)

(** How a computation ends: it returns, it raises, or it blocks and never
    comes back to its caller. *)
Inductive result (A : Type) :=
| Returned (a : A)
| Raised (e : exn)
| Blocked.

Arguments Returned {A} a.
Arguments Raised {A} e.
Arguments Blocked {A}.

Definition M (A : Type) := state -> result A * state.

Definition ret {A} (a : A) : M A := fun s => (Returned a, s).

Definition raise {A} (e : exn) : M A := fun s => (Raised e, s).

Definition block {A} : M A := fun s => (Blocked, s).

Definition bind {A B} (m : M A) (k : A -> M B) : M B :=
  fun s =>
    match m s with
    | (Returned a, s') => k a s'
    | (Raised e, s') => (Raised e, s')
    | (Blocked, s') => (Blocked, s')
    end.

Declare Scope py_scope.
Delimit Scope py_scope with py.
Notation "x <- m ;; k" := (bind m (fun x => k))
  (at level 100, m at next level, right associativity) : py_scope.
Notation "m ;; k" := (bind m (fun _ => k))
  (at level 100, right associativity) : py_scope.
Open Scope py_scope.

(** [try: body / except <matching>: handler] *)
Definition try_except {A} (body : M A) (matching : exn -> bool)
           (handler : M A) : M A :=
  fun s =>
    match body s with
    | (Raised e, s') => if matching e then handler s' else (Raised e, s')
    | r => r
    end.

(** [try: body / finally: fin].  The [finally] clause runs whether the
    body returned or raised.  When it raises, its exception replaces the
    outcome of the body; when it completes, the outcome of the body stands.
    A body that blocks never reaches it. *)
Definition try_finally {A} (body : M A) (fin : M unit) : M A :=
  fun s =>
    match body s with
    | (Blocked, s') => (Blocked, s')
    | (r, s') =>
        match fin s' with
        | (Returned _, s'') => (r, s'')
        | (Raised e, s'') => (Raised e, s'')
        | (Blocked, s'') => (Blocked, s'')
        end
    end.

(** [for x in xs: body] *)
Fixpoint for_each {A} (xs : list A) (body : A -> M unit) : M unit :=
  match xs with
  | [] => ret tt
  | x :: rest => body x ;; for_each rest body
  end.

(** An [option] of the pure part lifted: [None] raises [e]. *)
Definition lift {A} (e : exn) (o : option A) : M A :=
  match o with
  | Some a => ret a
  | None => raise e
  end.

(** [print(v)].  Standard output is taken to accept every text: a stream
    that cannot encode what is printed is outside this model. *)
Definition print (v : value) : M unit :=
  fun s => (Returned tt, log (EvPrint v) s).

(** Reading and binding a local variable. *)
Definition load {A} (name : string) (field : frame -> option A) : M A :=
  fun s => lift (UnboundLocalError name) (field (locals s)) s.

Definition store (f : frame -> frame) : M unit :=
  fun s => (Returned tt, with_locals (f (locals s)) s).

Definition set_process (h : handle) (f : frame) : frame :=
  {| process := Some h; timedout := timedout f; output := output f |}.

Definition set_timedout (b : bool) (f : frame) : frame :=
  {| process := process f; timedout := Some b; output := output f |}.

Definition set_output (o : bytes) (f : frame) : frame :=
  {| process := process f; timedout := timedout f; output := Some o |}.

(** ** [subprocess] *)

(** The [Popen] object behind a handle.  Handles only come from [Popen], so
    the lookup does not fail in any run of the script. *)
Definition popen_object (h : handle) : M proc :=
  fun s => lift (Other "no such process") (nth_error (table s) h) s.

(** [subprocess.Popen(cmd, stdout=PIPE, stderr=STDOUT, shell=True)].  The
    shell is taken to start: a command string that the operating system
    refuses (a NUL character, a line that is too long) is outside this
    model. *)
Definition Popen (cmd : str) : M handle :=
  fun s =>
    let h := List.length (table s) in
    let p := {| script := oracle s h; returncode := None;
                was_killed := false |} in
    (Returned h, log (EvSpawn h cmd) (with_table (table s ++ [p]) s)).

(** [p.returncode] *)
Definition get_returncode (h : handle) : M (option Z) :=
  p <- popen_object h ;; ret (returncode p).

Definition set_returncode (h : handle) (rc : option Z) : M unit :=
  p <- popen_object h ;;
  fun s =>
    (Returned tt,
     with_table (update h {| script := script p; returncode := rc;
                             was_killed := was_killed p |} (table s)) s).

(** [p.communicate(timeout=...)[0]] *)
Definition communicate (h : handle) (timeout : option N) : M bytes :=
  p <- popen_object h ;;
  (fun s => (Returned tt, log (EvCommunicate h timeout) s)) ;;
  match (if was_killed p then after_kill (script p)
         else respond (script p) timeout) with
  | Exits out code =>
      set_returncode h (Some code) ;;
      (fun s => (Returned tt, log (EvExit h code) s)) ;;
      ret out
  | Expires =>
      match timeout with
      | Some _ => raise TimeoutExpired
      | None => block
      end
  | Fails err rc =>
      set_returncode h rc ;;
      match rc with
      | Some code => fun s => (Returned tt, log (EvExit h code) s)
      | None => ret tt
      end ;;
      raise (Other err)
  end.

(** [p.kill()] *)
Definition kill (h : handle) : M unit :=
  p <- popen_object h ;;
  fun s =>
    (Returned tt,
     log (EvKill h)
         (with_table (update h {| script := script p;
                                  returncode := returncode p;
                                  was_killed := true |} (table s)) s)).

Definition is_TimeoutExpired (e : exn) : bool :=
  match e with
  | TimeoutExpired => true
  | _ => false
  end.

(** [rc != 0] for a return code that may be [None]. *)
Definition nonzero (rc : option Z) : bool :=
  match rc with
  | Some 0%Z => false
  | _ => true
  end.

Definition value_of_returncode (rc : option Z) : value :=
  match rc with
  | Some code => VInt code
  | None => VNone
  end.

(** ** [run_command] (lines 20 to 41) *)

Definition run_command (args_str : str) : M unit :=
  store (fun _ => empty_frame) ;;
  h <- Popen args_str ;;
  store (set_process h) ;;
  store (set_timedout false) ;;
  try_finally
    (try_except
       (p <- load "process" process ;;
        out <- communicate p (Some TIMEOUT) ;;
        store (set_output out))
       is_TimeoutExpired
       (store (set_timedout true) ;;
        p <- load "process" process ;;
        kill p ;;
        p <- load "process" process ;;
        out <- communicate p None ;;
        store (set_output out)))
    (p <- load "process" process ;;
     rc <- get_returncode p ;;
     t <- load "timedout" timedout ;;
     if nonzero rc || t then
       print (VStr args_str) ;;
       out <- load "output" output ;;
       for_each (splitlines out)
                (fun line =>
                   text <- lift UnicodeDecodeError (decode line) ;;
                   print (VStr text)) ;;
       t <- load "timedout" timedout ;;
       if t then
         msg <- lift FormatError
                  (format (lit "Timeout happened after {secs} secs from: {cmd}")
                     [] [(lit "secs", VInt (Z.of_N TIMEOUT));
                         (lit "cmd", VStr args_str)]) ;;
         raise (RuntimeError msg)
       else
         p <- load "process" process ;;
         rc <- get_returncode p ;;
         msg <- lift FormatError
                  (format (lit "Return code {code} from: {cmd}")
                     [] [(lit "code", value_of_returncode rc);
                         (lit "cmd", VStr args_str)]) ;;
         raise (RuntimeError msg)
     else ret tt).

(** ** The script (lines 7 to 17 and 44) *)

Definition main (argv : list str) : M unit :=
  let elasticurl_args := tl argv in
  java <- lift FormatError (java_command elasticurl_args) ;;
  print (VList java) ;;
  let command := join (lit " ") java in
  print (VStr command) ;;
  run_command command.

(** ** The two errors of the spec *)

(** [Timeout]: the [RuntimeError] of line 37. *)
Definition Timeout (secs : N) (cmd : str) : exn :=
  RuntimeError (lit "Timeout happened after " ++ str_of_int (Z.of_N secs)
                  ++ lit " secs from: " ++ cmd).

(** [NonZeroExit]: the [RuntimeError] of line 40. *)
Definition NonZeroExit (code : Z) (cmd : str) : exn :=
  RuntimeError (lit "Return code " ++ str_of_int code
                  ++ lit " from: " ++ cmd).

(** ** Vocabulary of the statements *)

(** The behaviour of the command that the next [Popen] spawns, and the
    handle it gets. *)
Definition next_child (s : state) : child :=
  oracle s (List.length (table s)).

Abbreviation fresh s := (List.length (table s)).

(** [line] is valid UTF-8. *)
Definition decodable (line : bytes) : bool :=
  match decode line with
  | Some _ => true
  | None => false
  end.

(** Every line of [out] is valid UTF-8. *)
Definition all_decodable (out : bytes) : bool :=
  forallb decodable (splitlines out).

(** What a run in which the wait returns or runs into the deadline collects:
    the timed-out flag, the exit code and the captured output.  When the
    deadline passes, code and output are those of the collection after the
    kill.  [None] when a wait fails otherwise, or when the collection after
    the kill does not return. *)
Definition collected (c : child) : option (bool * Z * bytes) :=
  match respond c (Some TIMEOUT) with
  | Exits out code => Some (false, code, out)
  | Expires =>
      match after_kill c with
      | Exits out code => Some (true, code, out)
      | _ => None
      end
  | Fails _ _ => None
  end.

(** The classification the spec describes, as a function of the timed-out
    flag and the exit code. *)
Definition classify (flag : bool) (code : Z) (cmd : str) : result unit :=
  if flag then Raised (Timeout TIMEOUT cmd)
  else if (code =? 0)%Z then Returned tt
  else Raised (NonZeroExit code cmd).

(** The handles alive after the events [t], given those alive before: a
    child is alive from its spawn until it has been waited for. *)
Fixpoint alive (live : list handle) (t : list event) : list handle :=
  match t with
  | [] => live
  | EvSpawn h _ :: rest => alive (h :: live) rest
  | EvExit h _ :: rest => alive (remove Nat.eq_dec h live) rest
  | _ :: rest => alive live rest
  end.

(** No command is spawned while another one is alive. *)
Fixpoint one_at_a_time (live : list handle) (t : list event) : bool :=
  match t with
  | [] => true
  | EvSpawn h _ :: rest =>
      match live with
      | [] => one_at_a_time [h] rest
      | _ :: _ => false
      end
  | EvExit h _ :: rest => one_at_a_time (remove Nat.eq_dec h live) rest
  | _ :: rest => one_at_a_time live rest
  end.

Definition is_spawn (e : event) : bool :=
  match e with
  | EvSpawn _ _ => true
  | _ => false
  end.

(** A command that ends in time with status [code] after writing [out]. *)
Definition exits_with (out : bytes) (code : Z) : child :=
  {| respond := fun _ => Exits out code; after_kill := Exits out (-9) |}.

(** A command that is still running at any deadline; once killed, the
    collection returns [out] and [code]. *)
Definition hangs (out : bytes) (code : Z) : child :=
  {| respond := fun _ => Expires; after_kill := Exits out code |}.

(** A command on which the wait fails with the exception [err], leaving
    [rc] in the [returncode] attribute. *)
Definition wait_fails_with (err : string) (rc : option Z) : child :=
  {| respond := fun _ => Fails err rc; after_kill := Exits [] (-9) |}.

(** ** Auxiliary definitions for the proofs *)

Definition emit (es : list event) (s : state) : state :=
  {| oracle := oracle s; table := table s; trace := trace s ++ es;
     locals := locals s |}.

Definition print_event (text : str) : event := EvPrint (VStr text).

(** The body of the loop of lines 34 and 35. *)
Definition print_line (line : bytes) : M unit :=
  text <- lift UnicodeDecodeError (decode line) ;;
  print (VStr text).

(** The lines the loop prints before it stops, and whether it reaches the
    end of the list. *)
Fixpoint lines_until_error (lines : list bytes) : list str * bool :=
  match lines with
  | [] => ([], true)
  | line :: rest =>
      match decode line with
      | Some text =>
          (text :: fst (lines_until_error rest), snd (lines_until_error rest))
      | None => ([], false)
      end
  end.

(** The state [s] after [run_command] has spawned its command: the new
    [Popen] object has return code [rc], [events] followed the spawn, and the
    local variables are [fr]. *)
Definition spawned (s : state) (cmd : str) (rc : option Z) (killed : bool)
           (fr : frame) (events : list event) : state :=
  {| oracle := oracle s;
     table := table s ++ [{| script := next_child s; returncode := rc;
                             was_killed := killed |}];
     trace := trace s ++ EvSpawn (List.length (table s)) cmd :: events;
     locals := fr |}.

Definition bound (h : handle) (t : bool) (out : option bytes) : frame :=
  {| process := Some h; timedout := Some t; output := out |}.

(** The [try] and [except] suites (lines 25 to 30). *)
Definition wait_suite : M unit :=
  try_except
    (p <- load "process" process ;;
     out <- communicate p (Some TIMEOUT) ;;
     store (set_output out))
    is_TimeoutExpired
    (store (set_timedout true) ;;
     p <- load "process" process ;;
     kill p ;;
     p <- load "process" process ;;
     out <- communicate p None ;;
     store (set_output out)).

(** The [finally] suite (lines 32 to 41). *)
Definition finally_suite (args_str : str) : M unit :=
  p <- load "process" process ;;
  rc <- get_returncode p ;;
  t <- load "timedout" timedout ;;
  if nonzero rc || t then
    print (VStr args_str) ;;
    out <- load "output" output ;;
    for_each (splitlines out) print_line ;;
    t <- load "timedout" timedout ;;
    if t then
      msg <- lift FormatError
               (format (lit "Timeout happened after {secs} secs from: {cmd}")
                  [] [(lit "secs", VInt (Z.of_N TIMEOUT));
                      (lit "cmd", VStr args_str)]) ;;
      raise (RuntimeError msg)
    else
      p <- load "process" process ;;
      rc <- get_returncode p ;;
      msg <- lift FormatError
               (format (lit "Return code {code} from: {cmd}")
                  [] [(lit "code", value_of_returncode rc);
                      (lit "cmd", VStr args_str)]) ;;
      raise (RuntimeError msg)
  else ret tt.

(** The outcome of the [finally] suite once it has decided to report. *)
Definition report_outcome (t : bool) (rc : option Z) (cmd : str)
           (out : option bytes) : exn :=
  match out with
  | None => UnboundLocalError "output"
  | Some o =>
      if snd (lines_until_error (splitlines o)) then
        if t then Timeout TIMEOUT cmd
        else RuntimeError (lit "Return code "
                             ++ match rc with
                                | Some code => str_of_int code
                                | None => lit "None"
                                end
                             ++ lit " from: " ++ cmd)
      else UnicodeDecodeError
  end.

Definition report_events (cmd : str) (out : option bytes) : list event :=
  print_event cmd
    :: match out with
       | None => []
       | Some o => map print_event (fst (lines_until_error (splitlines o)))
       end.



(** ** Vocabulary of the further properties *)

(** [x] has no space character. *)
Definition space_free (x : str) : bool :=
  forallb (fun c => negb (N.eqb c 32)) x.

(** A byte at which [bytes.splitlines] breaks a line. *)
Definition is_break (b : byte) : bool :=
  Byte.eqb b x0a || Byte.eqb b x0d.

(** A byte below 0x80. *)
Definition ascii_byte (b : byte) : bool := (Byte.to_N b <? 128)%N.

(** The code points of a line of ASCII bytes. *)
Definition code_points (line : bytes) : str := map Byte.to_N line.

Definition is_kill (e : event) : bool :=
  match e with
  | EvKill _ => true
  | _ => false
  end.
(** [str.format] on a template that ends with a field leaves an empty
    remainder after the last value. *)
Ltac format_by_evaluation cmd :=
  match goal with
  | |- _ = Some (?a ++ ?b ++ ?c ++ cmd) =>
      transitivity (Some (a ++ b ++ c ++ cmd ++ []));
      [reflexivity | now rewrite app_nil_r]
  end.


(** ** Symbolic execution of [run_command] *)

Section Execution.

#[local] Arguments lit : simpl never.
#[local] Arguments format : simpl never.
#[local] Arguments splitlines : simpl never.
#[local] Arguments decode : simpl never.
#[local] Arguments str_of_int : simpl never.
#[local] Arguments TIMEOUT : simpl never.

Lemma emit_nil s : emit [] s = s.
Proof. destruct s; unfold emit; simpl; now rewrite app_nil_r. Qed.

Lemma emit_emit es1 es2 s : emit es2 (emit es1 s) = emit (es1 ++ es2) s.
Proof. unfold emit; simpl; now rewrite app_assoc. Qed.

Lemma for_each_print_line lines s :
  for_each lines print_line s =
    (if snd (lines_until_error lines) then Returned tt
     else Raised UnicodeDecodeError,
     emit (map print_event (fst (lines_until_error lines))) s).
Proof.
  revert s; induction lines as [|line rest IH]; intro s; simpl.
  - now rewrite emit_nil.
  - unfold bind, print_line at 1, bind, lift.
    destruct (decode line) as [text|]; simpl.
    + rewrite IH. f_equal.
      change (log (EvPrint (VStr text)) s) with (emit [print_event text] s).
      now rewrite emit_emit.
    + unfold raise. now rewrite emit_nil.
Qed.

Lemma lines_until_error_all lines :
  snd (lines_until_error lines) = forallb decodable lines.
Proof.
  induction lines as [|line rest IH]; simpl; [reflexivity|].
  unfold decodable at 1. destruct (decode line); simpl; auto.
Qed.


Lemma format_timeout cmd :
  format (lit "Timeout happened after {secs} secs from: {cmd}") []
         [(lit "secs", VInt (Z.of_N TIMEOUT)); (lit "cmd", VStr cmd)]
  = Some (lit "Timeout happened after " ++ str_of_int (Z.of_N TIMEOUT)
            ++ lit " secs from: " ++ cmd).
Proof. format_by_evaluation cmd. Qed.

Lemma format_return_code rc cmd :
  format (lit "Return code {code} from: {cmd}") []
         [(lit "code", value_of_returncode rc); (lit "cmd", VStr cmd)]
  = Some (lit "Return code "
            ++ match rc with
               | Some code => str_of_int code
               | None => lit "None"
               end
            ++ lit " from: " ++ cmd).
Proof.
  destruct rc as [code|]; format_by_evaluation cmd.
Qed.

Lemma nth_error_snoc (t : list proc) p :
  nth_error (t ++ [p]) (List.length t) = Some p.
Proof. induction t; simpl; auto. Qed.

Lemma update_snoc (t : list proc) p q :
  update (List.length t) q (t ++ [p]) = t ++ [q].
Proof. induction t; simpl; [reflexivity|]. now rewrite IHt. Qed.

Ltac step :=
  repeat (progress
            (unfold bind, load, store, lift, ret, raise, block, popen_object,
               get_returncode, set_returncode, communicate, kill, print;
             cbn;
             repeat rewrite nth_error_snoc;
             repeat rewrite update_snoc)).

Lemma emit_spawned es s cmd rc killed fr events :
  emit es (spawned s cmd rc killed fr events)
  = spawned s cmd rc killed fr (events ++ es).
Proof.
  unfold emit, spawned; simpl. now rewrite <- app_assoc, <- app_comm_cons.
Qed.

Lemma run_command_eq cmd s :
  run_command cmd s =
    try_finally wait_suite (finally_suite cmd)
      (spawned s cmd None false (bound (fresh s) false None) []).
Proof. reflexivity. Qed.

Lemma wait_exits cmd s out code :
  respond (next_child s) (Some TIMEOUT) = Exits out code ->
  wait_suite (spawned s cmd None false (bound (fresh s) false None) [])
  = (Returned tt,
     spawned s cmd (Some code) false (bound (fresh s) false (Some out))
       [EvCommunicate (fresh s) (Some TIMEOUT); EvExit (fresh s) code]).
Proof.
  intros H. unfold wait_suite, try_except. step. rewrite H. step.
  unfold spawned, log, with_table, with_locals; simpl.
  rewrite <- !app_assoc. reflexivity.
Qed.

Lemma wait_expires cmd s out code :
  respond (next_child s) (Some TIMEOUT) = Expires ->
  after_kill (next_child s) = Exits out code ->
  wait_suite (spawned s cmd None false (bound (fresh s) false None) [])
  = (Returned tt,
     spawned s cmd (Some code) true (bound (fresh s) true (Some out))
       [EvCommunicate (fresh s) (Some TIMEOUT); EvKill (fresh s);
        EvCommunicate (fresh s) None; EvExit (fresh s) code]).
Proof.
  intros H K. unfold wait_suite, try_except. step. rewrite H. step.
  rewrite K. step.
  unfold spawned, log, with_table, with_locals; simpl.
  rewrite <- !app_assoc. reflexivity.
Qed.

Lemma wait_expires_fails cmd s err rc :
  respond (next_child s) (Some TIMEOUT) = Expires ->
  after_kill (next_child s) = Fails err rc ->
  wait_suite (spawned s cmd None false (bound (fresh s) false None) [])
  = (Raised (Other err),
     spawned s cmd rc true (bound (fresh s) true None)
       ([EvCommunicate (fresh s) (Some TIMEOUT); EvKill (fresh s);
         EvCommunicate (fresh s) None]
          ++ match rc with
             | Some code => [EvExit (fresh s) code]
             | None => []
             end)).
Proof.
  intros H K. unfold wait_suite, try_except. step. rewrite H. step.
  rewrite K. step.
  destruct rc as [code|]; step;
  unfold spawned, log, with_table, with_locals; simpl;
  rewrite <- !app_assoc; reflexivity.
Qed.

Lemma wait_expires_blocks cmd s :
  respond (next_child s) (Some TIMEOUT) = Expires ->
  after_kill (next_child s) = Expires ->
  wait_suite (spawned s cmd None false (bound (fresh s) false None) [])
  = (Blocked,
     spawned s cmd None true (bound (fresh s) true None)
       [EvCommunicate (fresh s) (Some TIMEOUT); EvKill (fresh s);
        EvCommunicate (fresh s) None]).
Proof.
  intros H K. unfold wait_suite, try_except. step. rewrite H. step.
  rewrite K. step.
  unfold spawned, log, with_table, with_locals; simpl.
  rewrite <- !app_assoc. reflexivity.
Qed.

Lemma wait_fails cmd s err rc :
  respond (next_child s) (Some TIMEOUT) = Fails err rc ->
  wait_suite (spawned s cmd None false (bound (fresh s) false None) [])
  = (Raised (Other err),
     spawned s cmd rc false (bound (fresh s) false None)
       (EvCommunicate (fresh s) (Some TIMEOUT)
          :: match rc with
             | Some code => [EvExit (fresh s) code]
             | None => []
             end)).
Proof.
  intros H. unfold wait_suite, try_except. step. rewrite H. step.
  destruct rc as [code|]; step;
  unfold spawned, log, with_table, with_locals; simpl;
  rewrite <- !app_assoc; reflexivity.
Qed.

Lemma finally_reports cmd s rc killed t out events :
  nonzero rc || t = true ->
  finally_suite cmd (spawned s cmd rc killed (bound (fresh s) t out) events)
  = (Raised (report_outcome t rc cmd out),
     spawned s cmd rc killed (bound (fresh s) t out)
       (events ++ report_events cmd out)).
Proof.
  intros H. unfold finally_suite. step. rewrite H. step.
  destruct out as [o|]; step.
  - rewrite for_each_print_line.
    change (log (EvPrint (VStr cmd)) ?st) with (emit [print_event cmd] st).
    rewrite emit_emit, emit_spawned.
    destruct (snd (lines_until_error (splitlines o))); [|reflexivity].
    step. destruct t; step.
    + rewrite format_timeout. reflexivity.
    + rewrite format_return_code. reflexivity.
  - unfold spawned, log; simpl. rewrite <- app_assoc. reflexivity.
Qed.

Lemma finally_silent cmd s killed out events :
  finally_suite cmd
    (spawned s cmd (Some 0%Z) killed (bound (fresh s) false out) events)
  = (Returned tt,
     spawned s cmd (Some 0%Z) killed (bound (fresh s) false out) events).
Proof. unfold finally_suite. step. reflexivity. Qed.

End Execution.

(** ** The four ways a call of [run_command] ends *)

Section Runs.

#[local] Arguments lit : simpl never.
#[local] Arguments splitlines : simpl never.
#[local] Arguments decode : simpl never.
#[local] Arguments str_of_int : simpl never.
#[local] Arguments TIMEOUT : simpl never.

Lemma nonzero_code code : code <> 0%Z -> nonzero (Some code) = true.
Proof. destruct code; simpl; congruence. Qed.

Lemma run_exits_zero cmd s out :
  respond (next_child s) (Some TIMEOUT) = Exits out 0 ->
  run_command cmd s
  = (Returned tt,
     spawned s cmd (Some 0%Z) false (bound (fresh s) false (Some out))
       [EvCommunicate (fresh s) (Some TIMEOUT); EvExit (fresh s) 0]).
Proof.
  intro H. rewrite run_command_eq. unfold try_finally.
  rewrite (wait_exits cmd s H), finally_silent. reflexivity.
Qed.

Lemma run_exits_nonzero cmd s out code :
  respond (next_child s) (Some TIMEOUT) = Exits out code ->
  code <> 0%Z ->
  run_command cmd s
  = (Raised (report_outcome false (Some code) cmd (Some out)),
     spawned s cmd (Some code) false (bound (fresh s) false (Some out))
       ([EvCommunicate (fresh s) (Some TIMEOUT); EvExit (fresh s) code]
          ++ report_events cmd (Some out))).
Proof.
  intros H Hc. rewrite run_command_eq. unfold try_finally.
  rewrite (wait_exits cmd s H), finally_reports; [reflexivity|].
  now rewrite (nonzero_code Hc).
Qed.

Lemma run_expires cmd s out code :
  respond (next_child s) (Some TIMEOUT) = Expires ->
  after_kill (next_child s) = Exits out code ->
  run_command cmd s
  = (Raised (report_outcome true (Some code) cmd (Some out)),
     spawned s cmd (Some code) true (bound (fresh s) true (Some out))
       ([EvCommunicate (fresh s) (Some TIMEOUT); EvKill (fresh s);
         EvCommunicate (fresh s) None; EvExit (fresh s) code]
          ++ report_events cmd (Some out))).
Proof.
  intros H K. rewrite run_command_eq. unfold try_finally.
  rewrite (wait_expires cmd s H K), finally_reports; [reflexivity|].
  apply orb_true_r.
Qed.

Lemma run_expires_fails cmd s err rc :
  respond (next_child s) (Some TIMEOUT) = Expires ->
  after_kill (next_child s) = Fails err rc ->
  run_command cmd s
  = (Raised (UnboundLocalError "output"),
     spawned s cmd rc true (bound (fresh s) true None)
       (([EvCommunicate (fresh s) (Some TIMEOUT); EvKill (fresh s);
          EvCommunicate (fresh s) None]
           ++ match rc with
              | Some code => [EvExit (fresh s) code]
              | None => []
              end)
          ++ [print_event cmd])).
Proof.
  intros H K. rewrite run_command_eq. unfold try_finally.
  rewrite (wait_expires_fails cmd s H K), finally_reports; [reflexivity|].
  apply orb_true_r.
Qed.

Lemma run_expires_blocks cmd s :
  respond (next_child s) (Some TIMEOUT) = Expires ->
  after_kill (next_child s) = Expires ->
  run_command cmd s
  = (Blocked,
     spawned s cmd None true (bound (fresh s) true None)
       [EvCommunicate (fresh s) (Some TIMEOUT); EvKill (fresh s);
        EvCommunicate (fresh s) None]).
Proof.
  intros H K. rewrite run_command_eq. unfold try_finally.
  now rewrite (wait_expires_blocks cmd s H K).
Qed.

Lemma run_fails cmd s err rc :
  respond (next_child s) (Some TIMEOUT) = Fails err rc ->
  run_command cmd s
  = (Raised (if nonzero rc then UnboundLocalError "output" else Other err),
     spawned s cmd rc false (bound (fresh s) false None)
       ((EvCommunicate (fresh s) (Some TIMEOUT)
           :: match rc with
              | Some code => [EvExit (fresh s) code]
              | None => []
              end)
          ++ if nonzero rc then [print_event cmd] else [])).
Proof.
  intro H. rewrite run_command_eq. unfold try_finally.
  rewrite (wait_fails cmd s H).
  destruct (nonzero rc) eqn:Hrc.
  - rewrite finally_reports; [reflexivity|]. now rewrite Hrc.
  - assert (rc = Some 0%Z) as ->
        by (destruct rc as [[| |]|]; simpl in Hrc; congruence).
    rewrite finally_silent. now rewrite app_nil_r.
Qed.

(** A run in which the wait returns or expires, and which fails. *)
Lemma run_collected cmd s flag code out :
  collected (next_child s) = Some (flag, code, out) ->
  flag = true \/ code <> 0%Z ->
  exists events,
    printed events = []
    /\ run_command cmd s
       = (Raised (report_outcome flag (Some code) cmd (Some out)),
          spawned s cmd (Some code) flag (bound (fresh s) flag (Some out))
            (events ++ report_events cmd (Some out))).
Proof.
  unfold collected. intros H Hfail.
  destruct (respond (next_child s) (Some TIMEOUT)) as [o c| |err rc] eqn:E;
    [inversion H; subst; clear H| |discriminate].
  - destruct Hfail as [|Hc]; [discriminate|].
    eexists; split; [|apply (run_exits_nonzero cmd s E Hc)]. reflexivity.
  - destruct (after_kill (next_child s)) as [o c| |err rc] eqn:K;
      inversion H; subst; clear H.
    eexists; split; [|apply (run_expires cmd s E K)]. reflexivity.
Qed.

Lemma printed_app t1 t2 : printed (t1 ++ t2) = printed t1 ++ printed t2.
Proof.
  induction t1 as [|e t1 IH]; simpl; [reflexivity|].
  destruct e; simpl; now rewrite ?IH.
Qed.

Lemma printed_print_events texts :
  printed (map print_event texts) = map VStr texts.
Proof. induction texts; simpl; now rewrite ?IHtexts. Qed.

Lemma printed_spawned s cmd rc killed fr events :
  printed (trace (spawned s cmd rc killed fr events))
  = printed (trace s) ++ printed events.
Proof. unfold spawned; simpl. now rewrite printed_app. Qed.

Lemma all_decodable_spec out :
  all_decodable out = snd (lines_until_error (splitlines out)).
Proof. unfold all_decodable. now rewrite lines_until_error_all. Qed.

Lemma undecodable_line out line :
  In line (splitlines out) -> decode line = None -> all_decodable out = false.
Proof.
  intros Hin Hdec. unfold all_decodable.
  destruct (forallb _ (splitlines out)) eqn:E; [|reflexivity].
  rewrite forallb_forall in E. specialize (E line Hin).
  unfold decodable in E. now rewrite Hdec in E.
Qed.

End Runs.

(** ** Command construction *)

Lemma java_command_eq (A : list str) :
  java_command A
  = Some [ lit "mvn"; lit "-e"; lit "exec:java";
           lit "-Dexec.classpathScope=" ++ dq ++ lit "test" ++ dq;
           lit "-Dexec.mainClass=" ++ dq
             ++ lit "software.amazon.awssdk.crt.test.Elasticurl" ++ dq;
           exec_args_flag (mvn_args A) ].
Proof. reflexivity. Qed.

(** C1. For every argument list [A], the command string the script builds
    is the fixed template [mvn -e exec:java -Dexec.classpathScope=.. 
    -Dexec.mainClass=..] followed by the flag [-Dexec.args] whose quoted
    value is the elements of [A] joined by single spaces; the flag is a
    substring of the command; for the empty list the quoted value is
    empty. *)
Theorem command_string_template (A : list str) :
  command_string A = Some (command_template (join (lit " ") A))
  /\ substring (exec_args_flag (join (lit " ") A))
               (command_template (join (lit " ") A))
  /\ command_string []
     = Some (lit "mvn -e exec:java -Dexec.classpathScope=" ++ dq
               ++ lit "test" ++ dq ++ lit " -Dexec.mainClass=" ++ dq
               ++ lit "software.amazon.awssdk.crt.test.Elasticurl" ++ dq
               ++ lit " -Dexec.args=" ++ dq ++ dq).
Proof.
  split; [reflexivity|]. split; [|reflexivity].
  exists (lit "mvn -e exec:java -Dexec.classpathScope=" ++ dq ++ lit "test"
            ++ dq ++ lit " -Dexec.mainClass=" ++ dq
            ++ lit "software.amazon.awssdk.crt.test.Elasticurl" ++ dq
            ++ lit " "), [].
  rewrite app_nil_r. reflexivity.
Qed.

(** C9. Command construction is not injective: the one-element argument
    list [a b] and the two-element list [a], [b] are different lists and
    give the same command string. *)
Theorem command_string_not_injective :
  [lit "a b"] <> [lit "a"; lit "b"]
  /\ command_string [lit "a b"] = command_string [lit "a"; lit "b"].
Proof. split; [discriminate | reflexivity]. Qed.

(** ** Runs that end in time *)

(** C2: the code at the failing input.  A command that ends before the
    deadline with exit code 7 after writing the single byte 0xff.  The
    [finally] suite prints the command string, and the decoding of line 35
    raises [UnicodeDecodeError]: no line of the output is printed and the
    NonZeroExit error of line 40 is never raised. *)
Theorem nonzero_exit_garbled_output :
  respond (next_child (initial (fun _ => exits_with [xff] 7))) (Some TIMEOUT)
  = Exits [xff] 7
  /\ printed (trace (snd (run_command (lit "mvn")
                            (initial (fun _ => exits_with [xff] 7)))))
     = [VStr (lit "mvn")]
  /\ fst (run_command (lit "mvn") (initial (fun _ => exits_with [xff] 7)))
     = Raised UnicodeDecodeError
  /\ fst (run_command (lit "mvn") (initial (fun _ => exits_with [xff] 7)))
     <> Raised (NonZeroExit 7 (lit "mvn")).
Proof.
  split; [reflexivity|]. split; [vm_compute; reflexivity|].
  split; [vm_compute; reflexivity|]. vm_compute. discriminate.
Qed.



(** ** Runs that hit the deadline *)

(** C3: the code at the failing input.  A command that is still running
    after 100 seconds and has written the single byte 0xff when it is
    killed.  [run_command] sets [timedout], kills the process and collects
    the output with a second [communicate]; the [finally] suite prints the
    command string, and the decoding of line 35 raises
    [UnicodeDecodeError]: the Timeout error of line 37 is never raised. *)
Theorem timeout_garbled_output :
  respond (next_child (initial (fun _ => hangs [xff] (-9)))) (Some 100%N)
  = Expires
  /\ timedout (locals (snd (run_command (lit "mvn")
                              (initial (fun _ => hangs [xff] (-9))))))
     = Some true
  /\ trace (snd (run_command (lit "mvn")
                   (initial (fun _ => hangs [xff] (-9)))))
     = [EvSpawn 0%nat (lit "mvn"); EvCommunicate 0%nat (Some 100%N);
        EvKill 0%nat; EvCommunicate 0%nat None; EvExit 0%nat (-9);
        EvPrint (VStr (lit "mvn"))]
  /\ fst (run_command (lit "mvn") (initial (fun _ => hangs [xff] (-9))))
     = Raised UnicodeDecodeError
  /\ fst (run_command (lit "mvn") (initial (fun _ => hangs [xff] (-9))))
     <> Raised (Timeout 100 (lit "mvn")).
Proof.
  split; [reflexivity|]. split; [vm_compute; reflexivity|].
  split; [vm_compute; reflexivity|]. split; [vm_compute; reflexivity|].
  vm_compute. discriminate.
Qed.

(** ** Classification *)

(** C4: the code at the failing input.  Two runs in which the deadline
    passes and the killed process reports exit code 0, so that the pair of
    timed-out flag and exit code is the same.  When the process wrote [ok]
    the outcome is the Timeout error, which is what the pair determines;
    when it wrote the single byte 0xff the outcome is [UnicodeDecodeError].
    The outcome is not a function of the pair, and the garbled run does not
    raise Timeout. *)
Theorem classification_garbled_output :
  collected (next_child (initial (fun _ => hangs [x6f; x6b] 0)))
  = Some (true, 0%Z, [x6f; x6b])
  /\ collected (next_child (initial (fun _ => hangs [xff] 0)))
     = Some (true, 0%Z, [xff])
  /\ timedout (locals (snd (run_command (lit "mvn")
                              (initial (fun _ => hangs [xff] 0)))))
     = Some true
  /\ option_map returncode
       (nth_error (table (snd (run_command (lit "mvn")
                                 (initial (fun _ => hangs [xff] 0))))) 0)
     = Some (Some 0%Z)
  /\ fst (run_command (lit "mvn") (initial (fun _ => hangs [x6f; x6b] 0)))
     = classify true 0 (lit "mvn")
  /\ classify true 0 (lit "mvn") = Raised (Timeout 100 (lit "mvn"))
  /\ fst (run_command (lit "mvn") (initial (fun _ => hangs [xff] 0)))
     = Raised UnicodeDecodeError
  /\ fst (run_command (lit "mvn") (initial (fun _ => hangs [xff] 0)))
     <> classify true 0 (lit "mvn").
Proof.
  split; [reflexivity|]. split; [reflexivity|].
  split; [vm_compute; reflexivity|]. split; [vm_compute; reflexivity|].
  split; [vm_compute; reflexivity|]. split; [reflexivity|].
  split; [vm_compute; reflexivity|]. vm_compute. discriminate.
Qed.

(** ** What a failing run prints *)

(** C6: the code at the failing input.  A command that ends with exit
    code 3 after writing a line [a] and a line that is the single byte
    0xff.  The command string and the first line are printed; the decoding
    of the second line raises [UnicodeDecodeError], so that line is never
    printed and neither documented error is raised. *)
Theorem failure_report_garbled_line :
  collected (next_child (initial (fun _ => exits_with [x61; x0a; xff] 3)))
  = Some (false, 3%Z, [x61; x0a; xff])
  /\ splitlines [x61; x0a; xff] = [[x61]; [xff]]
  /\ decode [xff] = None
  /\ printed (trace (snd (run_command (lit "mvn")
                (initial (fun _ => exits_with [x61; x0a; xff] 3)))))
     = [VStr (lit "mvn"); VStr (lit "a")]
  /\ fst (run_command (lit "mvn")
            (initial (fun _ => exits_with [x61; x0a; xff] 3)))
     = Raised UnicodeDecodeError.
Proof. repeat split; vm_compute; reflexivity. Qed.

(** C10.  In a failing run whose captured output has a line that is not
    valid UTF-8, the decoding of that line raises [UnicodeDecodeError]
    before the last statement of [run_command] is reached: the call ends
    with that exception, and neither the Timeout nor the NonZeroExit error
    is raised. *)
Theorem undecodable_line_masks_error s cmd flag code out line :
  collected (next_child s) = Some (flag, code, out) ->
  flag = true \/ code <> 0%Z ->
  In line (splitlines out) ->
  decode line = None ->
  fst (run_command cmd s) = Raised UnicodeDecodeError
  /\ fst (run_command cmd s) <> Raised (Timeout TIMEOUT cmd)
  /\ fst (run_command cmd s) <> Raised (NonZeroExit code cmd).
Proof.
  intros H Hfail Hin Hdec.
  destruct (run_collected cmd s H Hfail) as (events & _ & R).
  rewrite R. simpl fst. unfold report_outcome.
  rewrite <- all_decodable_spec, (undecodable_line out line Hin Hdec).
  repeat split; discriminate.
Qed.

Lemma undecodable_line_masks_error_witness :
  fst (run_command (lit "mvn") (initial (fun _ => exits_with [xc3; x28] 1)))
  = Raised UnicodeDecodeError.
Proof.
  apply (@undecodable_line_masks_error
           (initial (fun _ => exits_with [xc3; x28] 1)) (lit "mvn")
           false 1%Z [xc3; x28] [xc3; x28]);
    [reflexivity | right; discriminate | left; reflexivity | reflexivity].
Defined.

(** ** A wait that fails otherwise *)

(** C7: what the code does.  When the wait raises an exception other than
    [TimeoutExpired], the [finally] suite is still entered, but [output] was
    never bound.  With a return code other than 0 ([None] included) the
    command string is printed and the call ends with [UnboundLocalError];
    with return code 0 nothing is printed and the exception of the wait
    propagates.  In neither case is the Timeout or the NonZeroExit error
    raised. *)
Theorem wait_failure_is_not_classified s cmd err rc :
  respond (next_child s) (Some TIMEOUT) = Fails err rc ->
  fst (run_command cmd s)
  = Raised (if nonzero rc then UnboundLocalError "output" else Other err)
  /\ printed (trace (snd (run_command cmd s)))
     = printed (trace s) ++ (if nonzero rc then [VStr cmd] else [])
  /\ fst (run_command cmd s) <> Raised (Timeout TIMEOUT cmd)
  /\ (forall code, fst (run_command cmd s) <> Raised (NonZeroExit code cmd))
  /\ fst (run_command cmd s) <> Returned tt.
Proof.
  intro H. rewrite (run_fails cmd s H). simpl fst; simpl snd.
  split; [reflexivity|]. split.
  - rewrite printed_spawned.
    destruct rc as [c|]; destruct (nonzero _); simpl;
      rewrite ?app_nil_r; reflexivity.
  - destruct (nonzero rc); repeat split; try intro; discriminate.
Qed.

Lemma wait_failure_is_not_classified_witness :
  fst (run_command (lit "mvn")
         (initial (fun _ => wait_fails_with "KeyboardInterrupt" None)))
  = Raised (UnboundLocalError "output")
  /\ printed (trace (snd (run_command (lit "mvn")
                (initial (fun _ => wait_fails_with "KeyboardInterrupt" None)))))
     = [VStr (lit "mvn")].
Proof.
  destruct (wait_failure_is_not_classified
              (initial (fun _ => wait_fails_with "KeyboardInterrupt" None))
              (lit "mvn") (err := "KeyboardInterrupt") (rc := None) eq_refl)
    as (Hr & Hp & _).
  split; [exact Hr | exact Hp].
Defined.

(** ** One subprocess at a time *)

Lemma alive_app live t1 t2 :
  alive live (t1 ++ t2) = alive (alive live t1) t2.
Proof.
  revert live; induction t1 as [|e t1 IH]; intro live; simpl;
    [reflexivity|]. destruct e; apply IH.
Qed.

Lemma one_at_a_time_app live t1 t2 :
  one_at_a_time live (t1 ++ t2)
  = one_at_a_time live t1 && one_at_a_time (alive live t1) t2.
Proof.
  revert live; induction t1 as [|e t1 IH]; intro live; simpl;
    [reflexivity|]. destruct e; try apply IH.
  destruct live; [apply IH | reflexivity].
Qed.

Lemma no_spawn_one_at_a_time live t :
  forallb (fun e => negb (is_spawn e)) t = true ->
  one_at_a_time live t = true.
Proof.
  revert live; induction t as [|e t IH]; intro live; simpl;
    [reflexivity|].
  destruct e; simpl; try discriminate; intro H; now apply IH.
Qed.

Lemma no_spawn_alive t :
  forallb (fun e => negb (is_spawn e)) t = true -> alive [] t = [].
Proof.
  induction t as [|e t IH]; simpl; [reflexivity|].
  destruct e; simpl; try discriminate; exact IH.
Qed.

Lemma no_spawn_report cmd out :
  forallb (fun e => negb (is_spawn e)) (report_events cmd out) = true.
Proof.
  unfold report_events; simpl. destruct out as [o|]; [|reflexivity].
  induction (fst (lines_until_error (splitlines o))); simpl; auto.
Qed.

Lemma remove_self (h : handle) : remove Nat.eq_dec h [h] = [].
Proof. simpl. destruct (Nat.eq_dec h h); congruence. Qed.

(** The events of one call: a spawn, then events that spawn nothing.  When
    the call returns, and also when it raises after a wait that returned or
    expired, the child it spawned has been waited for. *)
Lemma run_command_events cmd s :
  exists events,
    trace (snd (run_command cmd s))
    = trace s ++ EvSpawn (fresh s) cmd :: events
    /\ forallb (fun e => negb (is_spawn e)) events = true
    /\ (fst (run_command cmd s) = Returned tt
        \/ collected (next_child s) <> None ->
        alive [fresh s] events = []).
Proof.
  unfold collected.
  destruct (respond (next_child s) (Some TIMEOUT)) as [out code| |err rc] eqn:E.
  - destruct (Z.eq_dec code 0) as [->|Hc].
    + rewrite (run_exits_zero cmd s E). eexists. split; [reflexivity|].
      split; [reflexivity|]. intros _. simpl. apply remove_self.
    + rewrite (run_exits_nonzero cmd s E Hc). eexists.
      split; [reflexivity|]. split.
      * exact (no_spawn_report cmd (Some out)).
      * intros _. rewrite alive_app.
        change (alive [fresh s] [EvCommunicate _ _; EvExit (fresh s) code])
          with (remove Nat.eq_dec (fresh s) [fresh s]).
        rewrite remove_self. apply no_spawn_alive, no_spawn_report.
  - destruct (after_kill (next_child s)) as [out code| |err rc] eqn:K.
    + rewrite (run_expires cmd s E K). eexists. split; [reflexivity|]. split.
      * exact (no_spawn_report cmd (Some out)).
      * intros _. rewrite alive_app.
        change (alive [fresh s] [EvCommunicate _ _; EvKill _;
                                 EvCommunicate _ _; EvExit (fresh s) code])
          with (remove Nat.eq_dec (fresh s) [fresh s]).
        rewrite remove_self. apply no_spawn_alive, no_spawn_report.
    + rewrite (run_expires_blocks cmd s E K). eexists.
      split; [reflexivity|]. split; [reflexivity|].
      simpl fst. intros [H|H]; [discriminate|congruence].
    + rewrite (run_expires_fails cmd s E K). eexists.
      split; [reflexivity|]. split.
      * destruct rc as [c|]; reflexivity.
      * simpl fst. intros [H|H]; [discriminate|congruence].
  - rewrite (run_fails cmd s E). eexists. split; [reflexivity|]. split.
    + destruct rc as [c|]; destruct (nonzero _); reflexivity.
    + simpl fst. intros [H|H]; [|congruence].
      destruct (nonzero rc); discriminate.
Qed.

(** From a state in which no child is alive, a call spawns its command
    with no other child alive.  It leaves none alive when it returns, and
    when it raises after a wait that returned or expired. *)
Lemma run_command_one_at_a_time cmd s :
  one_at_a_time [] (trace s) = true ->
  alive [] (trace s) = [] ->
  one_at_a_time [] (trace (snd (run_command cmd s))) = true
  /\ (fst (run_command cmd s) = Returned tt
      \/ collected (next_child s) <> None ->
      alive [] (trace (snd (run_command cmd s))) = []).
Proof.
  intros Hone Hnone.
  destruct (run_command_events cmd s) as (events & T & Hno & Hret).
  rewrite T, one_at_a_time_app, alive_app, Hone, Hnone. simpl.
  split; [now apply no_spawn_one_at_a_time | exact Hret].
Qed.

(** C8.  At most one subprocess is alive at any time.  In the run of the
    script, and in two calls of [run_command] in sequence, every spawn
    happens when no child spawned earlier is still alive: the second call
    is reached only when the first has returned, and by then its child has
    exited and has been waited for.  A call whose wait returns or expires
    leaves no child alive either, also when it raises: the child has exited
    by itself or has been killed, and has been waited for. *)
Theorem one_subprocess_at_a_time o :
  (forall a b,
      one_at_a_time []
        (trace (snd ((run_command a ;; run_command b) (initial o)))) = true)
  /\ (forall argv,
         one_at_a_time [] (trace (snd (main argv (initial o)))) = true)
  /\ (forall s cmd,
         one_at_a_time [] (trace s) = true ->
         alive [] (trace s) = [] ->
         collected (next_child s) <> None ->
         one_at_a_time [] (trace (snd (run_command cmd s))) = true
         /\ alive [] (trace (snd (run_command cmd s))) = []).
Proof.
  split; [|split].
  - intros a b. unfold bind.
    destruct (run_command_one_at_a_time a (initial o) eq_refl eq_refl)
      as (H1 & L1).
    destruct (run_command a (initial o)) as [[[]|e|] s1]; simpl in *.
    + apply (run_command_one_at_a_time b s1 H1 (L1 (or_introl eq_refl))).
    + exact H1.
    + exact H1.
  - intro argv. unfold main. rewrite java_command_eq.
    unfold lift, bind, ret, print.
    match goal with
    | |- context [run_command ?c ?st] =>
        apply (run_command_one_at_a_time c st eq_refl eq_refl)
    end.
  - intros s cmd Hone Hnone Hc.
    destruct (run_command_one_at_a_time cmd s Hone Hnone) as (H1 & L1).
    split; [exact H1 | apply L1; now right].
Qed.

Lemma one_subprocess_at_a_time_witness :
  one_at_a_time []
    (trace (snd (run_command (lit "mvn")
                   (initial (fun _ => hangs [x6f; x6b] (-9)))))) = true
  /\ alive []
       (trace (snd (run_command (lit "mvn")
                      (initial (fun _ => hangs [x6f; x6b] (-9)))))) = [].
Proof.
  apply (proj2 (proj2 (one_subprocess_at_a_time
                         (fun _ => hangs [x6f; x6b] (-9))))
           (initial (fun _ => hangs [x6f; x6b] (-9))) (lit "mvn"));
    [reflexivity | reflexivity | discriminate].
Defined.

(** * Further properties of the script *)

(** ** Command construction *)

Lemma command_string_eq (A : list str) :
  command_string A = Some (command_template (mvn_args A)).
Proof. reflexivity. Qed.

Lemma command_template_inj j1 j2 :
  command_template j1 = command_template j2 -> j1 = j2.
Proof.
  unfold command_template, exec_args_flag. intro H.
  repeat apply app_inv_head in H. now apply app_inv_tail in H.
Qed.

(** X1.  Two argument lists give the same command string exactly when
    their elements joined by single spaces are the same string: the command
    keeps the joined string and nothing else of the list. *)
Theorem command_string_keeps_joined_args (A B : list str) :
  command_string A = command_string B <-> mvn_args A = mvn_args B.
Proof.
  rewrite !command_string_eq. split.
  - intro H. apply command_template_inj. congruence.
  - now intros ->.
Qed.

Lemma join_cons2 sep (x y : str) (r : list str) :
  join sep (x :: y :: r) = x ++ sep ++ join sep (y :: r).
Proof. reflexivity. Qed.

Lemma join_app sep (A B : list str) :
  A <> [] -> B <> [] ->
  join sep (A ++ B) = join sep A ++ sep ++ join sep B.
Proof.
  intros HA HB. induction A as [|x A IH]; [congruence|].
  destruct A as [|y A].
  - destruct B as [|z B]; [congruence|]. reflexivity.
  - change ((x :: y :: A) ++ B) with (x :: y :: (A ++ B)).
    rewrite !join_cons2.
    change (y :: A ++ B) with ((y :: A) ++ B).
    rewrite IH by discriminate. now rewrite <- !app_assoc.
Qed.

(** X2.  Joining composes: for two non-empty argument lists, the joined
    string of their concatenation is the two joined strings with one space
    between them. *)
Theorem mvn_args_app (A B : list str) :
  A <> [] -> B <> [] ->
  mvn_args (A ++ B) = mvn_args A ++ lit " " ++ mvn_args B.
Proof. intros HA HB. unfold mvn_args. now apply join_app. Qed.

Lemma mvn_args_app_witness :
  mvn_args ([lit "-v"] ++ [lit "GET"; lit "url"])
  = mvn_args [lit "-v"] ++ lit " " ++ mvn_args [lit "GET"; lit "url"].
Proof.
  apply (@mvn_args_app [lit "-v"] [lit "GET"; lit "url"]); discriminate.
Defined.

Lemma space_free_cons c x :
  space_free (c :: x) = true -> c <> 32%N /\ space_free x = true.
Proof.
  unfold space_free; simpl. intro H. apply andb_true_iff in H as [Hc Hx].
  split; [|exact Hx]. intros ->. discriminate.
Qed.

(** A space-free string ends before the first space of what it starts. *)
Lemma first_space_splits x y r r' :
  space_free x = true -> space_free y = true ->
  x ++ 32%N :: r = y ++ 32%N :: r' -> x = y /\ r = r'.
Proof.
  revert y; induction x as [|c x IH]; intros [|d y] Hx Hy H; simpl in H.
  - injection H as ->. auto.
  - injection H as Hd _. apply space_free_cons in Hy as [Hy _]. congruence.
  - injection H as Hc _. apply space_free_cons in Hx as [Hx _]. congruence.
  - injection H as -> H.
    apply space_free_cons in Hx as [_ Hx].
    apply space_free_cons in Hy as [_ Hy].
    destruct (IH y Hx Hy H) as [-> ->]. auto.
Qed.

Lemma space_free_no_space x y r :
  space_free x = true -> x <> y ++ 32%N :: r.
Proof.
  revert y; induction x as [|c x IH]; intros [|d y] Hx H; simpl in H;
    try discriminate.
  - injection H as Hc _. apply space_free_cons in Hx as [Hx _]. congruence.
  - injection H as _ H. apply space_free_cons in Hx as [_ Hx].
    exact (IH y Hx H).
Qed.

Lemma mvn_args_inj (A B : list str) :
  A <> [] -> B <> [] ->
  forallb space_free A = true -> forallb space_free B = true ->
  mvn_args A = mvn_args B -> A = B.
Proof.
  unfold mvn_args. revert B; induction A as [|x A IH]; [congruence|].
  intros [|y B] _ HB HA HB'; [congruence|]. clear HB.
  simpl in HA, HB'. apply andb_true_iff in HA as [Hx HA].
  apply andb_true_iff in HB' as [Hy HB'].
  destruct A as [|x2 A]; destruct B as [|y2 B].
  - simpl. now intros ->.
  - rewrite join_cons2. simpl join at 1. intro H.
    now apply space_free_no_space in H.
  - rewrite join_cons2. simpl join at 2. intro H. symmetry in H.
    now apply space_free_no_space in H.
  - rewrite !join_cons2. intro H.
    apply (@first_space_splits x y _ _ Hx Hy) in H as [-> H].
    f_equal. apply IH; auto; discriminate.
Qed.

(** X3.  Argument boundaries are kept when no argument has a space: two
    non-empty lists of space-free arguments that give the same command
    string are the same list. *)
Theorem command_string_injective_without_spaces (A B : list str) :
  A <> [] -> B <> [] ->
  forallb space_free A = true -> forallb space_free B = true ->
  command_string A = command_string B -> A = B.
Proof.
  intros HA HB HsA HsB H. apply mvn_args_inj; auto.
  rewrite !command_string_eq in H.
  apply command_template_inj. congruence.
Qed.

Lemma command_string_injective_without_spaces_witness :
  [lit "-v"; lit "url"] = [lit "-v"; lit "url"].
Proof.
  apply (@command_string_injective_without_spaces
           [lit "-v"; lit "url"] [lit "-v"; lit "url"]);
    [discriminate | discriminate | reflexivity | reflexivity | reflexivity].
Defined.

(** ** How a call of [run_command] can end *)

(** X4.  [run_command] returns normally exactly when the command ended
    before the deadline with exit code 0.  In particular a wait that fails
    with another exception never makes the call return, whatever return code
    it leaves. *)
Theorem returns_iff_zero_exit s cmd :
  fst (run_command cmd s) = Returned tt
  <-> exists out, respond (next_child s) (Some TIMEOUT) = Exits out 0.
Proof.
  split.
  - destruct (respond (next_child s) (Some TIMEOUT))
      as [out code| |err rc] eqn:E.
    + destruct (Z.eq_dec code 0) as [->|Hc]; [intros _; now exists out|].
      rewrite (run_exits_nonzero cmd s E Hc). discriminate.
    + destruct (after_kill (next_child s)) as [o c| |err rc] eqn:K.
      * rewrite (run_expires cmd s E K). discriminate.
      * rewrite (run_expires_blocks cmd s E K). discriminate.
      * rewrite (run_expires_fails cmd s E K). discriminate.
    + rewrite (run_fails cmd s E). simpl. destruct (nonzero rc); discriminate.
  - intros [out E]. now rewrite (run_exits_zero cmd s E).
Qed.

(** X5.  The errors tell the truth about the run.  Every [RuntimeError]
    that leaves [run_command] is one of the two documented errors: the
    Timeout error, and then the wait did run into the deadline of 100
    seconds; or the NonZeroExit error for a code, and then the command did
    end before the deadline with that code, which is not 0.  (An exception
    that the wait itself raises is an [Other] here, whatever its class; a
    [RuntimeError] is one raised by line 37 or line 40.) *)
Theorem runtime_errors_are_sound s cmd msg :
  fst (run_command cmd s) = Raised (RuntimeError msg) ->
  (respond (next_child s) (Some 100%N) = Expires
   /\ RuntimeError msg = Timeout 100 cmd)
  \/ (exists out code,
         respond (next_child s) (Some 100%N) = Exits out code
         /\ code <> 0%Z
         /\ RuntimeError msg = NonZeroExit code cmd).
Proof.
  change 100%N with TIMEOUT.
  destruct (respond (next_child s) (Some TIMEOUT)) as [out code| |err rc] eqn:E.
  - destruct (Z.eq_dec code 0) as [->|Hc].
    + rewrite (run_exits_zero cmd s E). discriminate.
    + rewrite (run_exits_nonzero cmd s E Hc). simpl fst. unfold report_outcome.
      destruct (snd (lines_until_error (splitlines out))); [|discriminate].
      intro H. injection H as H. right. exists out, code.
      split; [reflexivity|]. split; [exact Hc|].
      unfold NonZeroExit. now rewrite <- H.
  - destruct (after_kill (next_child s)) as [out code| |err rc] eqn:K.
    + rewrite (run_expires cmd s E K). simpl fst. unfold report_outcome.
      destruct (snd (lines_until_error (splitlines out))); [|discriminate].
      intro H. injection H as H. left. split; [reflexivity|].
      unfold Timeout. now rewrite <- H.
    + rewrite (run_expires_blocks cmd s E K). discriminate.
    + rewrite (run_expires_fails cmd s E K). discriminate.
  - rewrite (run_fails cmd s E). simpl fst.
    destruct (nonzero rc); discriminate.
Qed.

Lemma runtime_errors_are_sound_witness :
  (respond (next_child (initial (fun _ => exits_with [x6f; x6b] 7)))
     (Some 100%N) = Expires
   /\ RuntimeError (lit "Return code 7 from: mvn") = Timeout 100 (lit "mvn"))
  \/ (exists out code,
         respond (next_child (initial (fun _ => exits_with [x6f; x6b] 7)))
           (Some 100%N) = Exits out code
         /\ code <> 0%Z
         /\ RuntimeError (lit "Return code 7 from: mvn")
            = NonZeroExit code (lit "mvn")).
Proof.
  apply (@runtime_errors_are_sound
           (initial (fun _ => exits_with [x6f; x6b] 7)) (lit "mvn")
           (lit "Return code 7 from: mvn")).
  vm_compute. reflexivity.
Defined.

(** ** What a call does to the trace *)

Lemma kill_in_prints texts : existsb is_kill (map print_event texts) = false.
Proof. induction texts; simpl; auto. Qed.

Lemma kill_in_report cmd out : existsb is_kill (report_events cmd out) = false.
Proof.
  unfold report_events; simpl.
  destruct out; [apply kill_in_prints|reflexivity].
Qed.

(** Every call adds to the trace the spawn of its command and then events
    among which there is no spawn, and a kill only after a wait that ran
    into the deadline. *)
Lemma run_command_shape cmd s :
  exists events,
    trace (snd (run_command cmd s))
    = trace s ++ EvSpawn (fresh s) cmd :: events
    /\ forallb (fun e => negb (is_spawn e)) events = true
    /\ (existsb is_kill events = true ->
        respond (next_child s) (Some TIMEOUT) = Expires).
Proof.
  destruct (run_command_events cmd s) as (events & Htr & Hns & _).
  exists events. split; [exact Htr|]. split; [exact Hns|].
  destruct (respond (next_child s) (Some TIMEOUT)) as [out code| |err rc] eqn:E;
    [|reflexivity|]; intro Hk; exfalso; revert Htr Hk.
  - destruct (Z.eq_dec code 0) as [->|Hc].
    + rewrite (run_exits_zero cmd s E). simpl. intro Htr.
      apply app_inv_head in Htr. injection Htr as <-. discriminate.
    + rewrite (run_exits_nonzero cmd s E Hc). simpl. intro Htr.
      apply app_inv_head in Htr. injection Htr as <-.
      change (existsb is_kill _)
        with (existsb is_kill (report_events cmd (Some out))).
      rewrite kill_in_report. discriminate.
  - rewrite (run_fails cmd s E). simpl. intro Htr.
    apply app_inv_head in Htr. injection Htr as <-.
    destruct rc as [c|]; destruct (nonzero _); discriminate.
Qed.


(** X7.  The script spawns nothing but the command it has shown: whenever
    a spawn of a command string occurs in the trace of the script, that
    string is the command string built from the arguments after the program
    name, and the trace starts with the print of the argument list, the
    print of that string and that spawn. *)
Theorem script_spawns_only_what_it_printed o argv h c :
  In (EvSpawn h c) (trace (snd (main argv (initial o)))) ->
  command_string (tl argv) = Some c
  /\ exists java events,
       java_command (tl argv) = Some java
       /\ trace (snd (main argv (initial o)))
          = EvPrint (VList java) :: EvPrint (VStr c)
              :: EvSpawn h c :: events.
Proof.
  unfold main. rewrite java_command_eq. unfold lift, bind, ret, print.
  match goal with
  | |- context [run_command ?cs ?st] =>
      destruct (run_command_shape cs st) as (events & Htr & Hns & _)
  end.
  rewrite Htr. simpl. intros [H|[H|[H|H]]]; try discriminate.
  - injection H as <- <-. split; [reflexivity|].
    do 2 eexists. split; reflexivity.
  - rewrite forallb_forall in Hns. specialize (Hns _ H). discriminate.
Qed.

Lemma script_spawns_only_what_it_printed_witness :
  command_string (tl [lit "runner.py"; lit "-v"])
  = Some (command_template (lit "-v"))
  /\ exists java events,
       java_command (tl [lit "runner.py"; lit "-v"]) = Some java
       /\ trace (snd (main [lit "runner.py"; lit "-v"]
                        (initial (fun _ => exits_with [] 0))))
          = EvPrint (VList java) :: EvPrint (VStr (command_template (lit "-v")))
              :: EvSpawn 0%nat (command_template (lit "-v")) :: events.
Proof.
  apply (@script_spawns_only_what_it_printed
           (fun _ => exits_with [] 0) [lit "runner.py"; lit "-v"]
           0%nat (command_template (lit "-v"))).
  vm_compute. right; right; left. reflexivity.
Defined.

(** ** The lines of the captured output *)

Lemma splitlines_from_concat n :
  forall bs cur,
    (List.length bs <= n)%nat ->
    List.concat (splitlines_from cur bs)
    = cur ++ filter (fun b => negb (is_break b)) bs.
Proof.
  induction n as [|n IH]; intros [|b rest] cur Hn; simpl in Hn; try lia.
  - simpl. destruct cur; simpl; now rewrite ?app_nil_r.
  - simpl. destruct cur; simpl; now rewrite ?app_nil_r.
  - simpl. unfold is_break at 1.
    destruct (Byte.eqb b x0a) eqn:E1; simpl.
    + rewrite IH by lia. reflexivity.
    + destruct (Byte.eqb b x0d) eqn:E2; simpl.
      * destruct rest as [|b' rest'].
        -- simpl. now rewrite app_nil_r.
        -- destruct (Byte.eqb b' x0a) eqn:E3.
           ++ simpl. unfold is_break at 1. rewrite E3. simpl.
              rewrite IH by (simpl in Hn; lia). reflexivity.
           ++ cbn [List.concat]. rewrite IH by lia. reflexivity.
      * rewrite IH by lia. now rewrite <- app_assoc.
Qed.

(** X8.  Splitting the captured output into lines drops the line feeds and
    carriage returns and nothing else: the lines, put end to end, are the
    output without those bytes, in the same order. *)
Theorem splitlines_keeps_content (out : bytes) :
  List.concat (splitlines out) = filter (fun b => negb (is_break b)) out.
Proof. exact (@splitlines_from_concat (List.length out) out [] (le_n _)). Qed.

Lemma utf8_ascii (bs : list N) :
  forallb (fun b => (b <? 128)%N) bs = true -> utf8 bs = Some bs.
Proof.
  induction bs as [|b bs IH]; [reflexivity|].
  intro H. simpl in H. apply andb_true_iff in H as [Hb H].
  cbn [utf8]. rewrite Hb, (IH H). reflexivity.
Qed.

Lemma decode_ascii (line : bytes) :
  forallb ascii_byte line = true -> decode line = Some (code_points line).
Proof.
  intro H. unfold decode, code_points. apply utf8_ascii.
  rewrite forallb_forall in *. intros n Hn.
  apply in_map_iff in Hn as (b & <- & Hb). exact (H b Hb).
Qed.

Lemma ascii_lines (out : bytes) :
  forallb ascii_byte out = true ->
  forall line, In line (splitlines out) -> forallb ascii_byte line = true.
Proof.
  intros H line Hin. rewrite forallb_forall in *. intros b Hb.
  apply H.
  assert (In b (List.concat (splitlines out))) as Hc
      by (apply in_concat; now exists line).
  unfold splitlines in Hc.
  rewrite (@splitlines_from_concat (List.length out) out [] (le_n _)) in Hc.
  simpl in Hc. now apply filter_In in Hc.
Qed.

Lemma lines_until_error_ascii (lines : list bytes) :
  (forall line, In line lines -> forallb ascii_byte line = true) ->
  lines_until_error lines = (map code_points lines, true).
Proof.
  induction lines as [|line rest IH]; intro H; [reflexivity|].
  cbn [lines_until_error].
  rewrite (decode_ascii _ (H line (or_introl eq_refl))).
  rewrite IH by (intros l Hl; apply H; now right). reflexivity.
Qed.

(** X9.  When the captured output is pure ASCII, a failing run always ends
    with the documented error (Timeout when the deadline passed, NonZeroExit
    otherwise), and what it prints is the command string followed by every
    line of the output, each as the text with the same code points as the
    line has bytes. *)
Theorem ascii_output_is_reported s cmd flag code out :
  collected (next_child s) = Some (flag, code, out) ->
  flag = true \/ code <> 0%Z ->
  forallb ascii_byte out = true ->
  fst (run_command cmd s)
  = Raised (if flag then Timeout TIMEOUT cmd else NonZeroExit code cmd)
  /\ printed (trace (snd (run_command cmd s)))
     = printed (trace s)
         ++ VStr cmd :: map (fun line => VStr (code_points line))
                            (splitlines out).
Proof.
  intros H Hfail Ha.
  destruct (run_collected cmd s H Hfail) as (events & Hev & R).
  rewrite R. simpl fst; simpl snd.
  rewrite printed_spawned, printed_app, Hev.
  unfold report_outcome, report_events.
  rewrite (lines_until_error_ascii _ (ascii_lines out Ha)).
  cbn [fst snd]. split; [now destruct flag|].
  simpl. now rewrite printed_print_events, map_map.
Qed.

Lemma ascii_output_is_reported_witness :
  fst (run_command (lit "mvn")
         (initial (fun _ => exits_with [x6f; x6b; x0d; x0a; x21] 2)))
  = Raised (NonZeroExit 2 (lit "mvn"))
  /\ printed (trace (snd (run_command (lit "mvn")
                (initial (fun _ => exits_with [x6f; x6b; x0d; x0a; x21] 2)))))
     = [] ++ VStr (lit "mvn")
          :: map (fun line => VStr (code_points line))
                 (splitlines [x6f; x6b; x0d; x0a; x21]).
Proof.
  apply (@ascii_output_is_reported
           (initial (fun _ => exits_with [x6f; x6b; x0d; x0a; x21] 2))
           (lit "mvn") false 2%Z [x6f; x6b; x0d; x0a; x21]);
    [reflexivity | right; discriminate | reflexivity].
Defined.


